(** * Text cleaning task: the canonicalizer, the grader and the expression tool

    A shallow embedding of [task.py].  Python strings are sequences of
    Unicode code points, so a string is a list of code points here; the
    two regular-expression substitutions, [str.strip] and [re.findall]
    are written as the scanners the patterns denote.  The grader works on
    an arbitrary Python value, modelled by [pyval], and every operation
    that raises on a value of the wrong type does so in the model.  The
    expression tool threads the interpreter's state, [sys.stdout]
    included, through the call. *)

From stdpp Require Import gmap list strings.
From Stdlib Require Import NArith Ascii String.

Local Open Scope N_scope.
Set Warnings "-register-all,-clear-no-such-hyp".

(** * The program *)

(** ** Code points and strings *)

Abbreviation cp := N.
Abbreviation str := (list N).

(** The code points of a literal written with Basic Latin characters. *)
Definition cps (s : string) : str :=
  (fun a => N_of_ascii a) <$> list_ascii_of_string s.

Definition LT : cp := 60.        (* '<' *)
Definition GT : cp := 62.        (* '>' *)
Definition LF : cp := 10.        (* '\n' *)
Definition SP : cp := 32.        (* ' ' *)
Definition LOW_LINE : cp := 95.  (* '_' *)
Definition EM_DASH : cp := 8212. (* U+2014 *)

(** [Py_UNICODE_ISSPACE]: the characters [\s] matches in a [str] pattern
    and [str.strip()] removes.  This is CPython's whole table: U+0009 to
    U+000D, U+001C to U+0020, U+0085, U+00A0, U+1680, U+2000 to U+200A,
    U+2028, U+2029, U+202F, U+205F and U+3000. *)
Definition isspace (c : cp) : bool :=
  ((9 <=? c) && (c <=? 13)) || ((28 <=? c) && (c <=? 32))
  || (c =? 133) || (c =? 160) || (c =? 5760)
  || ((8192 <=? c) && (c <=? 8202))
  || (c =? 8232) || (c =? 8233) || (c =? 8239) || (c =? 8287) || (c =? 12288).

(** *** The part of the Unicode database the dataset needs

    [plain] characters are those of the Basic Latin block and the em dash
    of the last review.  On them lowercasing and the alphanumeric test are
    the familiar ones. *)
Definition plain (c : cp) : bool := (c <? 128) || (c =? EM_DASH).

Definition lower_plain (c : cp) : cp :=
  if (65 <=? c) && (c <=? 90) then c + 32 else c.

Definition lower_str (s : str) : str := lower_plain <$> s.

Definition alnum_plain (c : cp) : bool :=
  ((48 <=? c) && (c <=? 57)) || ((65 <=? c) && (c <=? 90))
  || ((97 <=? c) && (c <=? 122)).

(** Python's Unicode tables belong to the interpreter, not to the program:
    [str.lower] and the alphanumeric test behind [\w] are taken as an
    interface.  It says what they do on plain text, and that no white
    space character is alphanumeric.  [str_lower] works on whole strings,
    since Python lowercases a capital sigma by its context. *)
Class Unicode := {
  str_lower : str -> str;
  isalnum : cp -> bool;
  str_lower_plain : forall s : str,
    forallb plain s = true -> str_lower s = lower_str s;
  isalnum_plain : forall c : cp,
    plain c = true -> isalnum c = alnum_plain c;
  isalnum_space : forall c : cp,
    isspace c = true -> isalnum c = false
}.

(** Decide the comparisons of code points in the goal, one at a time. *)
Ltac cp_cases :=
  repeat match goal with
    | |- context [N.leb ?a ?b] => destruct (N.leb_spec a b); try lia
    | |- context [N.ltb ?a ?b] => destruct (N.ltb_spec a b); try lia
    | |- context [N.eqb ?a ?b] => destruct (N.eqb_spec a b); try lia
    end.

(** The tables that treat every character that is not plain as caseless
    and not alphanumeric: an instance of the interface, on which the
    program can be run. *)
Definition PlainUnicode : Unicode.
Proof.
  refine {| str_lower := lower_str; isalnum := alnum_plain |}.
  - reflexivity.
  - reflexivity.
  - intros c Hs. destruct (alnum_plain c) eqn:Ha; [|reflexivity].
    assert (48 <= c <= 122) as Hc.
    { revert Ha. unfold alnum_plain. cp_cases; simpl; try done; lia. }
    revert Hs. unfold isspace. cp_cases; simpl; done.
Defined.

(** ** Regular expressions and string methods *)

Section Regex.
Context {U : Unicode}.

(** [\w] on a [str] pattern: alphanumeric or the low line. *)
Definition isword (c : cp) : bool := isalnum c || (c =? LOW_LINE).

(** The lazy [.*?>] after a ['<']: the text that follows the first
    ['>'], provided no line feed comes before it (['.'] matches any
    character except a line feed). *)
Fixpoint tag_rest (s : str) : option str :=
  match s with
  | [] => None
  | c :: r =>
      if c =? GT then Some r
      else if c =? LF then None
      else tag_rest r
  end.

(** [re.sub(r"<.*?>", "", s)].  [in_tag] says that the scanner is inside
    a match whose closing ['>'] is known to lie ahead. *)
Fixpoint sub_tags_from (in_tag : bool) (s : str) : str :=
  match s with
  | [] => []
  | c :: r =>
      if in_tag then
        if c =? GT then sub_tags_from false r else sub_tags_from true r
      else if (c =? LT) && bool_decide (is_Some (tag_rest r))
        then sub_tags_from true r
        else c :: sub_tags_from false r
  end.

Definition re_sub_tags (s : str) : str := sub_tags_from false s.

(** [re.sub(r"\s+", " ", s)]: each maximal run of white space becomes one
    space; [in_run] says that the previous character was white space. *)
Fixpoint sub_ws_from (in_run : bool) (s : str) : str :=
  match s with
  | [] => []
  | c :: r =>
      if isspace c then
        if in_run then sub_ws_from true r else SP :: sub_ws_from true r
      else c :: sub_ws_from false r
  end.

Definition re_sub_ws (s : str) : str := sub_ws_from false s.

(** [str.strip()]. *)
Fixpoint lstrip (s : str) : str :=
  match s with
  | [] => []
  | c :: r => if isspace c then lstrip r else s
  end.

Definition rstrip (s : str) : str := rev (lstrip (rev s)).
Definition strip (s : str) : str := rstrip (lstrip s).

(** [re.findall(r"\w+", s)]: the maximal runs of word characters, left
    to right; [cur] is the run being read, last character first. *)
Definition flush (cur : str) (toks : list str) : list str :=
  match cur with
  | [] => toks
  | _ => rev cur :: toks
  end.

Fixpoint findall_word_from (cur : str) (s : str) : list str :=
  match s with
  | [] => flush cur []
  | c :: r =>
      if isword c then findall_word_from (c :: cur) r
      else flush cur (findall_word_from [] r)
  end.

Definition re_findall_word (s : str) : list str := findall_word_from [] s.
End Regex.

(** ** Python values and exceptions *)

(** The values a submission can be built from.  [VFloat] carries the bits
    of the number, none of whose arithmetic the program uses. *)
Inductive pyval :=
| VNone
| VBool (b : bool)
| VInt (z : Z)
| VFloat (bits : Z)
| VStr (s : str)
| VList (l : list pyval)
| VTuple (l : list pyval)
| VDict (kv : list (pyval * pyval)).

Inductive exc := TypeError | AttributeError.

#[export] Instance exc_eq_dec : EqDecision exc.
Proof. solve_decision. Defined.

(** A computation returns a value or raises. *)
Inductive res (A : Type) :=
| Ok (a : A)
| Raise (e : exc).
Arguments Ok {A} a.
Arguments Raise {A} e.

#[export] Instance res_eq_dec {A : Type} `{EqDecision A} : EqDecision (res A).
Proof. solve_decision. Defined.

Definition bind {A B : Type} (m : res A) (f : A -> res B) : res B :=
  match m with
  | Ok a => f a
  | Raise e => Raise e
  end.

Notation "'let*' x ':=' m 'in' k" := (bind m (fun x => k))
  (at level 10, x name, m at level 200, k at level 200).

Definition isinstance_str (v : pyval) : bool :=
  match v with VStr _ => true | _ => false end.

(** [isinstance(v, list)]: a tuple is not a list. *)
Definition isinstance_list (v : pyval) : bool :=
  match v with VList _ => true | _ => false end.

Definition is_str (s : str) (v : pyval) : bool :=
  match v with VStr t => bool_decide (t = s) | _ => false end.

(** [for item in v]: the items a [for] loop visits, [TypeError] on a value
    that is not iterable. *)
Definition py_iter (v : pyval) : res (list pyval) :=
  match v with
  | VList l | VTuple l => Ok l
  | VStr s => Ok ((fun c => VStr [c]) <$> s)
  | VDict kv => Ok (fst <$> kv)
  | _ => Raise TypeError
  end.

(** [c in v] for a one-character string [c]: a substring test on a string,
    a search for an equal item in a list, a tuple or the keys of a dict
    (only a string equals a string), [TypeError] elsewhere. *)
Definition py_contains (c : cp) (v : pyval) : res bool :=
  match v with
  | VStr s => Ok (bool_decide (c ∈ s))
  | VList l | VTuple l => Ok (existsb (is_str [c]) l)
  | VDict kv => Ok (existsb (is_str [c]) (fst <$> kv))
  | _ => Raise TypeError
  end.

(** [v != s] for a string [s]. *)
Definition py_ne_str (v : pyval) (s : str) : bool :=
  negb (is_str s v).

(** ** The dataset, the canonicalizer and the grader *)

Definition ORIGINAL_REVIEWS : list str := [
  cps "I LOVE this product!!!  ";
  cps "<br>Terrible idea... absolutely STUPID design<br>";
  cps "Decent, could be better";
  cps "I love this product!!!";
  cps "<div>What a nonsense feature</div>";
  cps "Pretty good overall";
  cps "This is an IDIOT move";
  cps "Pretty good overall  ";
  cps "Excellent " ++ [EM_DASH] ++ cps " highly recommend!"
].

Definition TOXIC_WORDS : gset str :=
  {[ cps "idiot"; cps "stupid"; cps "nonsense" ]}.

(** [any(tok in TOXIC_WORDS for tok in tokens)] *)
Definition any_toxic (tokens : list str) : bool :=
  existsb (fun tok => bool_decide (tok ∈ TOXIC_WORDS)) tokens.

Section Program.
Context {U : Unicode}.

(** [v.lower()]: only a string has the method. *)
Definition py_lower (v : pyval) : res str :=
  match v with
  | VStr s => Ok (str_lower s)
  | _ => Raise AttributeError
  end.

(** [re.sub(r"\s+", " ", v)]: [TypeError] unless [v] is a string. *)
Definition py_re_sub_ws (v : pyval) : res str :=
  match v with
  | VStr s => Ok (re_sub_ws s)
  | _ => Raise TypeError
  end.

Definition _canonical_clean (text : pyval) : res (option str) :=
  if negb (isinstance_str text) then Ok None
  else
    let* s := py_lower text in
    let s := re_sub_tags s in
    let s := strip (re_sub_ws s) in
    let tokens := re_findall_word s in
    if any_toxic tokens then Ok None
    else Ok (match s with [] => None | _ => Some s end).

(** The loop that builds [canonical] over the reviews still to read. *)
Fixpoint canonical_from (rs : list str) (canonical : gset str)
  : res (gset str) :=
  match rs with
  | [] => Ok canonical
  | r :: rest =>
      let* cleaned := _canonical_clean (VStr r) in
      match cleaned with
      | Some c => canonical_from rest (canonical ∪ {[ c ]})
      | None => canonical_from rest canonical
      end
  end.

(** The loop over the submitted items, with the set [seen] so far; the
    result is the value [grading_func] returns. *)
Fixpoint grade_items (canonical seen : gset str) (items : list pyval)
  : res bool :=
  match items with
  | [] => Ok (bool_decide (seen = canonical))
  | item :: rest =>
      if negb (isinstance_str item) then Ok false
      else
        let* has_lt := py_contains LT item in
        let* has_angle :=
          (if has_lt then Ok true else py_contains GT item) in
        if has_angle then Ok false
        else
          let* low := py_lower item in
          if py_ne_str item low then Ok false
          else
            let* subbed := py_re_sub_ws item in
            let norm := strip subbed in
            let tokens := re_findall_word norm in
            if any_toxic tokens then Ok false
            else if bool_decide (norm ∈ seen) then Ok false
            else
              let seen := seen ∪ {[ norm ]} in
              if bool_decide (norm ∉ canonical) then Ok false
              else grade_items canonical seen rest
  end.

Definition grading_func (result : pyval) : res bool :=
  if negb (isinstance_list result) then Ok false
  else
    let* canonical := canonical_from ORIGINAL_REVIEWS ∅ in
    let* items := py_iter result in
    grade_items canonical ∅ items.
End Program.

(** ** The expression tool *)

Module Evaluator.

(** An object the executed code can leave bound to [sys.stdout]: a
    [StringIO] with its text, a closed [StringIO], or anything else (the
    console, [None], an object of the code's own, a [StringIO] whose
    [getvalue] the code has replaced).  An identity without an entry in
    the store is an object of the last kind. *)
Inductive object :=
| OpenStringIO (text : str)
| ClosedStringIO
| Foreign.

(** What the interpreter holds that the tool touches: the object bound to
    [sys.stdout], the objects by identity, and the next free identity. *)
Record world := World {
  sys_stdout : nat;
  objects : gmap nat object;
  next_id : nat
}.

(** What a statement can raise: an [Exception] whose [str(e)] returns a
    text, an [Exception] whose [str(e)] raises in its turn, a
    [KeyboardInterrupt], or another [BaseException] outside [Exception]
    ([SystemExit], [GeneratorExit]) with its name.  [str(e)] is taken to
    leave the state of the interpreter as it is. *)
Inductive raised :=
| ExceptionOf (msg : str)
| ExceptionStrRaises (inner : raised)
| KeyboardInterrupt
| OtherBaseException (name : str).

Inductive outcome (A : Type) :=
| Done (a : A)
| Raised (e : raised).
Arguments Done {A} a.
Arguments Raised {A} e.

(** The interpreter, as far as the tool calls into it: [exec] is
    [exec(expression, local_ns, local_ns)], and the submitted code may do
    anything to the world, [sys.stdout] included; [foreign_getvalue] is
    [obj.getvalue()] on an object that is no plain [StringIO], which may
    return any value, raise, and change the world. *)
Record interpreter := Interpreter {
  exec : str -> world -> outcome unit * world;
  foreign_getvalue : nat -> world -> outcome pyval * world
}.

(** [result] is whatever [getvalue()] returned, [error] a text or
    [None]. *)
Record PythonExpressionToolResult := ToolResult {
  result : pyval;
  error : option str
}.

(** [StringIO()]: a fresh object with empty text. *)
Definition new_StringIO (w : world) : nat * world :=
  (next_id w,
   World (sys_stdout w) (<[next_id w := OpenStringIO []]> (objects w))
     (S (next_id w))).

(** [sys.stdout = obj] *)
Definition set_stdout (obj : nat) (w : world) : world :=
  World obj (objects w) (next_id w).

(** The text of the [ValueError] a closed [StringIO] raises. *)
Definition closed_file : str := cps "I/O operation on closed file".

(** [obj.getvalue()]: the text of an open [StringIO], a [ValueError] on a
    closed one, and what the interpreter says on any other object. *)
Definition getvalue (py : interpreter) (obj : nat) (w : world)
  : outcome pyval * world :=
  match objects w !! obj with
  | Some (OpenStringIO text) => (Done (VStr text), w)
  | Some ClosedStringIO => (Raised (ExceptionOf closed_file), w)
  | _ => foreign_getvalue py obj w
  end.

Definition python_expression_tool (py : interpreter)
    (expression : str) (w : world)
  : outcome PythonExpressionToolResult * world :=
  let old_stdout := sys_stdout w in
  let '(buf, w) := new_StringIO w in
  let w := set_stdout buf w in
  (* try: exec(...); output = sys.stdout.getvalue() *)
  let '(ran, w) := exec py expression w in
  let '(output, w) :=
    match ran with
    | Done _ => getvalue py (sys_stdout w) w
    | Raised e => (Raised e, w)
    end in
  (* finally: sys.stdout = old_stdout *)
  let w := set_stdout old_stdout w in
  match output with
  | Done output => (Done (ToolResult output None), w)
  (* except KeyboardInterrupt: raise *)
  | Raised KeyboardInterrupt => (Raised KeyboardInterrupt, w)
  (* except Exception as e: return {"result": None, "error": str(e)} *)
  | Raised (ExceptionOf msg) => (Done (ToolResult VNone (Some msg)), w)
  | Raised (ExceptionStrRaises inner) => (Raised inner, w)
  | Raised e => (Raised e, w)
  end.

End Evaluator.

(** * Notions used in the statements *)

(** The four rows the task expects. *)
Definition row_love : str := cps "i love this product!!!".
Definition row_decent : str := cps "decent, could be better".
Definition row_pretty : str := cps "pretty good overall".
Definition row_excellent : str :=
  cps "excellent " ++ [EM_DASH] ++ cps " highly recommend!".

Definition canonical_rows : list str :=
  [row_love; row_decent; row_pretty; row_excellent].

(** The set the grader calls [canonical]. *)
Definition canonical_set : gset str := list_to_set canonical_rows.

(** A submission that is a list of strings. *)
Definition py_str_list (l : list str) : pyval := VList (VStr <$> l).

(** Text made of plain characters. *)
Definition plain_str (s : str) : Prop := Forall (fun c => plain c = true) s.

Section Notions.
Context {U : Unicode}.

(** The form under which the grader compares a submitted string. *)
Definition norm_of (s : str) : str := strip (re_sub_ws s).

(** The rules an item is held to on its own: no angle bracket, equal to
    its lowercase form, no toxic token. *)
Definition item_ok (s : str) : bool :=
  negb (bool_decide (LT ∈ s) || bool_decide (GT ∈ s))
  && bool_decide (s = str_lower s)
  && negb (any_toxic (re_findall_word (norm_of s))).

(** The word tokens of a text once its tags are removed. *)
Definition tokens_after_tags (s : str) : list str :=
  re_findall_word (re_sub_tags s).
End Notions.

(** Submitted code for the expression tool, and what [exec] does with it.
    The object 0 is [None] and the object 1 the console.  Any other text
    is run as the empty program. *)
Definition code_divide : str := cps "1/0".
Definition code_interrupt : str := cps "raise KeyboardInterrupt".
Definition code_exit : str := cps "raise SystemExit".
Definition code_unbind : str := cps "import sys; sys.stdout = None".
Definition code_print : str := cps "print('ok')".
Definition code_no_text : str :=
  cps "raise type('E', (Exception,), {'__str__': lambda s: 1/0})()".

Definition exec_sample (code : str) (w : Evaluator.world)
  : Evaluator.outcome unit * Evaluator.world :=
  if bool_decide (code = code_divide) then
    (Evaluator.Raised (Evaluator.ExceptionOf (cps "division by zero")), w)
  else if bool_decide (code = code_interrupt) then
    (Evaluator.Raised Evaluator.KeyboardInterrupt, w)
  else if bool_decide (code = code_exit) then
    (Evaluator.Raised (Evaluator.OtherBaseException (cps "SystemExit")), w)
  else if bool_decide (code = code_unbind) then
    (Evaluator.Done tt, Evaluator.set_stdout 0 w)
  else if bool_decide (code = code_no_text) then
    (Evaluator.Raised
       (Evaluator.ExceptionStrRaises
          (Evaluator.ExceptionOf (cps "division by zero"))), w)
  else if bool_decide (code = code_print) then
    match Evaluator.objects w !! Evaluator.sys_stdout w with
    | Some (Evaluator.OpenStringIO text) =>
        (Evaluator.Done tt,
         Evaluator.World (Evaluator.sys_stdout w)
           (<[Evaluator.sys_stdout w :=
                Evaluator.OpenStringIO (text ++ cps "ok" ++ [LF])]>
              (Evaluator.objects w))
           (Evaluator.next_id w))
    | Some Evaluator.ClosedStringIO =>
        (Evaluator.Raised (Evaluator.ExceptionOf Evaluator.closed_file), w)
    | _ => (Evaluator.Done tt, w)
    end
  else (Evaluator.Done tt, w).

(** [getvalue] on [None] and on the console: neither has the method. *)
Definition foreign_getvalue_sample (obj : nat) (w : Evaluator.world)
  : Evaluator.outcome pyval * Evaluator.world :=
  (Evaluator.Raised
     (Evaluator.ExceptionOf
        (if bool_decide (obj = 0%nat)
         then cps "'NoneType' object has no attribute 'getvalue'"
         else cps "'_io.TextIOWrapper' object has no attribute 'getvalue'")),
   w).

Definition py_sample : Evaluator.interpreter :=
  Evaluator.Interpreter exec_sample foreign_getvalue_sample.

(** The interpreter at rest: [sys.stdout] is the console. *)
Definition world0 : Evaluator.world := Evaluator.World 1 ∅ 2.

(** The world in which the tool runs the submitted code. *)
Definition redirected (w : Evaluator.world) : Evaluator.world :=
  let '(buf, w1) := Evaluator.new_StringIO w in Evaluator.set_stdout buf w1.

(** What a cleaned text looks like. *)

(** No ['<'] of the text is followed, however far, by a ['>']. *)
Fixpoint tag_free (s : str) : Prop :=
  match s with
  | [] => True
  | c :: r => (c = LT -> GT ∉ r) /\ tag_free r
  end.

(** White space is single spaces only; [in_run] says that the previous
    character was a space. *)
Fixpoint single_spaced (in_run : bool) (s : str) : bool :=
  match s with
  | [] => true
  | c :: r =>
      if isspace c then (c =? SP) && negb in_run && single_spaced true r
      else single_spaced false r
  end.

(** The text does not start with white space. *)
Definition clean_start (s : str) : bool :=
  match s with
  | [] => true
  | c :: _ => negb (isspace c)
  end.

Section GraderNotions.
Context {U : Unicode}.
(** What the loop asks of one item, whatever the items before it: a string
    that passes the rules for single items and normalizes to a canonical
    row. *)
Definition valid_item (v : pyval) : bool :=
  match v with
  | VStr s => item_ok s && bool_decide (norm_of s ∈ canonical_set)
  | _ => false
  end.
End GraderNotions.

(** * Properties *)

(** ** The scanners *)

(** The tag scanner is the leftmost, lazy match of [<.*?>]: at a ['<']
    whose tag closes, the substitution resumes after the closing ['>'];
    any other character is kept. *)
Lemma sub_tags_inside (s r : str) :
  tag_rest s = Some r -> sub_tags_from true s = sub_tags_from false r.
Proof.
  revert r. induction s as [|c s IH]; intros r; simpl; [done|].
  destruct (c =? GT) eqn:Hgt.
  - by intros [= ->].
  - destruct (c =? LF); [done|]. apply IH.
Qed.

Lemma re_sub_tags_cons (c : cp) (s : str) :
  re_sub_tags (c :: s) =
    if c =? LT then
      match tag_rest s with
      | Some r => re_sub_tags r
      | None => c :: re_sub_tags s
      end
    else c :: re_sub_tags s.
Proof.
  unfold re_sub_tags. simpl. destruct (c =? LT); simpl; [|done].
  destruct (tag_rest s) as [r|] eqn:Hr.
  - rewrite bool_decide_eq_true_2; [|by eexists]. by apply sub_tags_inside.
  - rewrite bool_decide_eq_false_2; [done|]. by intros [? [=]].
Qed.

(** The scanners on texts that try the corners of the patterns: a ['<']
    inside a tag, a tag broken by a line feed, runs of mixed white space,
    and the characters that end a word. *)
Example re_sub_tags_nested :
  re_sub_tags (cps "<<a>b>") = cps "b>"
  /\ re_sub_tags (cps "<a<b>>c") = cps ">c"
  /\ re_sub_tags (cps "<>x<") = cps "x<".
Proof. by vm_compute. Qed.

Example re_sub_tags_line_feed :
  re_sub_tags (cps "a<b" ++ [LF] ++ cps ">c<d>e>f<")
    = cps "a<b" ++ [LF] ++ cps ">ce>f<".
Proof. by vm_compute. Qed.

Example strip_re_sub_ws_runs :
  strip (re_sub_ws (cps " a " ++ [9; LF] ++ cps " b" ++ [160; 8195] ++ cps "c "))
    = cps "a b c".
Proof. by vm_compute. Qed.

Example re_findall_word_runs :
  @re_findall_word PlainUnicode (cps "ab_c d1-e" ++ [EM_DASH] ++ cps "f!")
    = [cps "ab_c"; cps "d1"; cps "e"; cps "f"].
Proof. by vm_compute. Qed.

(** A text without ['>'] has no tag to remove. *)
Lemma tag_rest_no_gt (s : str) : GT ∉ s -> tag_rest s = None.
Proof.
  induction s as [|c s IH]; simpl; [done|].
  intros [Hc Hs]%not_elem_of_cons.
  destruct (N.eqb_spec c GT) as [->|_]; [done|].
  destruct (c =? LF); [done|]. by apply IH.
Qed.

Lemma re_sub_tags_no_gt (s : str) : GT ∉ s -> re_sub_tags s = s.
Proof.
  induction s as [|c s IH]; [done|].
  intros [Hc Hs]%not_elem_of_cons.
  rewrite re_sub_tags_cons, (tag_rest_no_gt s Hs), (IH Hs).
  by destruct (c =? LT).
Qed.

(** ** What the scanners keep

    The scanners delete characters and write spaces; a property of
    characters that holds of the space therefore passes from a text to
    its cleaned form. *)

Section Keep.
Variable P : cp -> Prop.

Lemma Forall_sub_tags (b : bool) (s : str) :
  Forall P s -> Forall P (sub_tags_from b s).
Proof.
  intros H. revert b.
  induction H as [|c s Hc Hs IH]; intros b; simpl; [constructor|].
  destruct b.
  - destruct (c =? GT); apply IH.
  - destruct ((c =? LT) && _); [apply IH|]. constructor; [done|apply IH].
Qed.

Lemma Forall_sub_ws (b : bool) (s : str) :
  P SP -> Forall P s -> Forall P (sub_ws_from b s).
Proof.
  intros Hsp H. revert b.
  induction H as [|c s Hc Hs IH]; intros b; simpl; [constructor|].
  destruct (isspace c).
  - destruct b; [apply IH|]. constructor; [done|apply IH].
  - constructor; [done|apply IH].
Qed.

Lemma Forall_lstrip (s : str) : Forall P s -> Forall P (lstrip s).
Proof.
  induction 1 as [|c s Hc Hs IH]; simpl; [constructor|].
  destruct (isspace c); [done|]. by constructor.
Qed.

Lemma Forall_strip (s : str) : Forall P s -> Forall P (strip s).
Proof.
  intros H. unfold strip, rstrip.
  apply Forall_rev, Forall_lstrip, Forall_rev. by apply Forall_lstrip.
Qed.
End Keep.

(** ** Plain strings: every Unicode table computes the same *)

Lemma plain_str_forallb (s : str) : forallb plain s = true <-> plain_str s.
Proof.
  unfold plain_str. induction s as [|c s IH]; simpl.
  - split; [constructor|done].
  - rewrite andb_true_iff, IH. split.
    + intros [??]. by constructor.
    + by inversion 1.
Qed.

Lemma plain_strs_check (l : list str) :
  forallb (forallb plain) l = true -> Forall plain_str l.
Proof.
  induction l as [|s l IH]; simpl; [constructor|].
  intros [Hs Hl]%andb_true_iff. constructor; [|by apply IH].
  by apply plain_str_forallb.
Qed.

Lemma plain_lower (c : cp) : plain c = true -> plain (lower_plain c) = true.
Proof.
  unfold plain, lower_plain, EM_DASH.
  destruct (N.leb_spec 65 c), (N.leb_spec c 90); simpl; try done.
  intros _. apply orb_true_iff. left. apply N.ltb_lt. lia.
Qed.

Lemma plain_str_lower (s : str) : plain_str s -> plain_str (lower_str s).
Proof.
  unfold plain_str, lower_str. intros H. apply Forall_fmap.
  eapply Forall_impl; [exact H|]. intros c. apply plain_lower.
Qed.

Lemma plain_str_norm (s : str) : plain_str s -> plain_str (strip (re_sub_ws s)).
Proof. intros H. by apply Forall_strip, Forall_sub_ws. Qed.

Lemma plain_str_sub_tags (s : str) : plain_str s -> plain_str (re_sub_tags s).
Proof. apply Forall_sub_tags. Qed.

Section Transfer.
Context {U : Unicode}.

Lemma isword_plain (c : cp) :
  plain c = true -> isword c = @isword PlainUnicode c.
Proof. intros H. unfold isword. by rewrite isalnum_plain. Qed.

Lemma findall_word_from_plain (cur s : str) :
  plain_str s ->
  findall_word_from cur s = @findall_word_from PlainUnicode cur s.
Proof.
  intros H. revert cur.
  induction H as [|c s Hc Hs IH]; intros cur; simpl; [done|].
  rewrite (isword_plain c Hc). destruct (isword c); by rewrite IH.
Qed.

Lemma re_findall_word_plain (s : str) :
  plain_str s -> re_findall_word s = @re_findall_word PlainUnicode s.
Proof. apply findall_word_from_plain. Qed.

Lemma str_lower_plain_str (s : str) :
  plain_str s -> str_lower s = lower_str s.
Proof. intros H. by apply str_lower_plain, plain_str_forallb. Qed.

Lemma _canonical_clean_plain (s : str) :
  plain_str s ->
  _canonical_clean (VStr s) = @_canonical_clean PlainUnicode (VStr s).
Proof.
  intros H. unfold _canonical_clean. simpl.
  rewrite (str_lower_plain_str s H). simpl.
  rewrite re_findall_word_plain; [done|].
  by apply plain_str_norm, plain_str_sub_tags, plain_str_lower.
Qed.

Lemma canonical_from_plain (rs : list str) (c : gset str) :
  Forall plain_str rs ->
  canonical_from rs c = @canonical_from PlainUnicode rs c.
Proof.
  intros H. revert c. induction H as [|r rs Hr Hrs IH]; intros c; [done|].
  simpl. rewrite (_canonical_clean_plain r Hr).
  destruct (@_canonical_clean PlainUnicode (VStr r)) as [[x|]|e];
    simpl; by rewrite ?IH.
Qed.

Lemma grade_items_plain (canonical seen : gset str) (l : list str) :
  Forall plain_str l ->
  grade_items canonical seen (VStr <$> l) =
    @grade_items PlainUnicode canonical seen (VStr <$> l).
Proof.
  intros H. revert seen. induction H as [|s l Hs Hl IH]; intros seen; [done|].
  simpl. rewrite (str_lower_plain_str s Hs).
  rewrite re_findall_word_plain by by apply plain_str_norm.
  repeat (match goal with |- context [if ?b then _ else _] =>
            destruct b end; simpl; try done).
Qed.
End Transfer.

(** ** The dataset *)

Lemma reviews_plain : Forall plain_str ORIGINAL_REVIEWS.
Proof. apply plain_strs_check. by vm_compute. Qed.

Lemma rows_plain : Forall plain_str canonical_rows.
Proof. apply plain_strs_check. by vm_compute. Qed.

Lemma canonical_from_reviews `{U : Unicode} :
  canonical_from ORIGINAL_REVIEWS ∅ = Ok canonical_set.
Proof.
  rewrite (canonical_from_plain _ _ reviews_plain).
  apply (bool_decide_unpack _). by vm_compute.
Qed.

Lemma grading_func_list `{U : Unicode} (items : list pyval) :
  grading_func (VList items) = grade_items canonical_set ∅ items.
Proof.
  unfold grading_func.
  change (negb (isinstance_list (VList items))) with false.
  cbv iota. by rewrite canonical_from_reviews.
Qed.

Lemma grading_func_plain `{U : Unicode} (l : list str) :
  Forall plain_str l ->
  grading_func (py_str_list l) = @grading_func PlainUnicode (py_str_list l).
Proof.
  intros H. unfold py_str_list. rewrite !grading_func_list.
  by apply grade_items_plain.
Qed.

Lemma plain_str_perm (l l' : list str) :
  l ≡ₚ l' -> Forall plain_str l' -> Forall plain_str l.
Proof. intros Hp H. by rewrite Hp. Qed.

(** Evaluate the program on plain text written out in full. *)
Ltac run_grader :=
  rewrite grading_func_plain by (apply plain_strs_check; by vm_compute);
  by vm_compute.

Ltac run_canonical_clean :=
  rewrite _canonical_clean_plain by (apply plain_str_forallb; by vm_compute);
  by vm_compute.

(** ** The grader's loop *)

Section Grader.
Context {U : Unicode}.

Lemma grade_items_str (canonical seen : gset str) (s : str)
    (rest : list pyval) :
  grade_items canonical seen (VStr s :: rest) =
    if item_ok s && bool_decide (norm_of s ∉ seen)
       && bool_decide (norm_of s ∈ canonical)
    then grade_items canonical (seen ∪ {[ norm_of s ]}) rest
    else Ok false.
Proof.
  unfold item_ok, norm_of. simpl. unfold py_ne_str, is_str.
  destruct (bool_decide (LT ∈ s)); simpl; [done|].
  destruct (bool_decide (GT ∈ s)); simpl; [done|].
  destruct (bool_decide (s = str_lower s)); simpl; [|done].
  destruct (any_toxic _); simpl; [done|].
  rewrite !bool_decide_not.
  destruct (bool_decide (_ ∈ seen)); simpl; [done|].
  by destruct (bool_decide (_ ∈ canonical)).
Qed.

Lemma grade_items_other (canonical seen : gset str) (v : pyval)
    (rest : list pyval) :
  isinstance_str v = false ->
  grade_items canonical seen (v :: rest) = Ok false.
Proof. intros H. simpl. by rewrite H. Qed.

(** The loop returns a boolean on every list of values. *)
Lemma grade_items_total (canonical seen : gset str) (items : list pyval) :
  exists b : bool, grade_items canonical seen items = Ok b.
Proof.
  revert seen. induction items as [|v items IH]; intros seen.
  - by eexists.
  - destruct v as [| | | |s| | |];
      try (rewrite grade_items_other by done; by eexists).
    rewrite grade_items_str.
    destruct (_ && _); [apply IH|by eexists].
Qed.

(** What a run of the loop that ends in [True] has checked. *)
Lemma grade_items_true (canonical seen : gset str) (l : list str) :
  grade_items canonical seen (VStr <$> l) = Ok true <->
    Forall (fun s => item_ok s = true) l
    /\ NoDup (norm_of <$> l)
    /\ (forall n, n ∈ norm_of <$> l -> n ∉ seen)
    /\ seen ∪ list_to_set (norm_of <$> l) = canonical.
Proof.
  revert seen. induction l as [|s l IH]; intros seen.
  - simpl. split.
    + intros [= ->%bool_decide_eq_true].
      repeat split; [constructor|constructor|set_solver|set_solver].
    + intros (_ & _ & _ & <-). f_equal. apply bool_decide_eq_true.
      set_solver.
  - rewrite fmap_cons, grade_items_str.
    destruct (item_ok s) eqn:Hok; simpl; cycle 1.
    { split; [done|]. intros (H & _). inversion H; congruence. }
    destruct (bool_decide_reflect (norm_of s ∉ seen)) as [Hs|Hs]; simpl;
      cycle 1.
    { split; [done|]. intros (_ & _ & H & _). destruct Hs. apply H.
      set_solver. }
    destruct (bool_decide_reflect (norm_of s ∈ canonical)) as [Hc|Hc];
      simpl; cycle 1.
    { split; [done|]. intros (_ & _ & _ & <-). destruct Hc. set_solver. }
    rewrite IH, NoDup_cons. split.
    + intros (Hall & Hnd & Hfresh & Heq). repeat split.
      * by constructor.
      * intros Hin. apply (Hfresh _ Hin). set_solver.
      * done.
      * intros n [->|Hn]%elem_of_cons; [done|].
        specialize (Hfresh n Hn). set_solver.
      * rewrite <- Heq. set_solver.
    + intros (Hall & [Hnin Hnd] & Hfresh & Heq). repeat split.
      * by inversion Hall.
      * done.
      * intros n Hn. pose proof (Hfresh n). set_solver.
      * rewrite <- Heq. set_solver.
Qed.

(** The grader returns a boolean on every value. *)
Lemma grading_func_returns (v : pyval) :
  exists b : bool, grading_func v = Ok b.
Proof.
  destruct v as [| | | | |items| |];
    try (by exists false).
  rewrite grading_func_list. apply grade_items_total.
Qed.

Lemma grading_func_not_true (v : pyval) :
  grading_func v <> Ok true -> grading_func v = Ok false.
Proof.
  destruct (grading_func_returns v) as [[|] ->]; [done|done].
Qed.

(** The submissions of strings the grader accepts. *)
Lemma grading_func_true (l : list str) :
  grading_func (py_str_list l) = Ok true <->
    Forall (fun s => item_ok s = true) l
    /\ NoDup (norm_of <$> l)
    /\ list_to_set (norm_of <$> l) = canonical_set.
Proof.
  unfold py_str_list. rewrite grading_func_list, grade_items_true.
  rewrite (left_id_L ∅ (∪)). set_solver.
Qed.

Lemma grading_func_true_length (l : list str) :
  grading_func (py_str_list l) = Ok true -> List.length l = 4%nat.
Proof.
  intros (_ & Hnd & Heq)%grading_func_true.
  rewrite <- (length_fmap norm_of l).
  rewrite <- (size_list_to_set (C:=gset str)) by done.
  by rewrite Heq.
Qed.

Lemma grading_func_wrong_length (l : list str) :
  List.length l <> 4%nat -> grading_func (py_str_list l) = Ok false.
Proof.
  intros Hl. apply grading_func_not_true.
  by intros H%grading_func_true_length.
Qed.
End Grader.

(** ** Tokens survive the normalization of white space *)

Section Tokens.
Context {U : Unicode}.

Lemma isword_space (c : cp) : isspace c = true -> isword c = false.
Proof.
  intros H. unfold isword. rewrite (isalnum_space c H). simpl.
  unfold LOW_LINE. destruct (N.eqb_spec c 95) as [->|]; [done|done].
Qed.

Lemma findall_word_sub_ws (in_run : bool) (cur s : str) :
  (in_run = true -> cur = []) ->
  findall_word_from cur (sub_ws_from in_run s) = findall_word_from cur s.
Proof.
  revert in_run cur. induction s as [|c s IH]; intros in_run cur Hrun;
    simpl; [done|].
  destruct (isspace c) eqn:Hc.
  - rewrite (isword_space c Hc). destruct in_run.
    + rewrite (Hrun eq_refl). simpl. by apply IH.
    + simpl. rewrite (isword_space SP) by done. by rewrite IH.
  - simpl. destruct (isword c); rewrite IH; done.
Qed.

Lemma findall_word_lstrip (s : str) :
  findall_word_from [] (lstrip s) = findall_word_from [] s.
Proof.
  induction s as [|c s IH]; simpl; [done|].
  destruct (isspace c) eqn:Hc; [|done].
  by rewrite (isword_space c Hc).
Qed.

Lemma lstrip_split (s : str) :
  exists ws : str, s = ws ++ lstrip s /\ Forall (fun c => isspace c = true) ws.
Proof.
  induction s as [|c s (ws & Hs & Hws)]; simpl.
  - by exists [].
  - destruct (isspace c) eqn:Hc.
    + exists (c :: ws). split; [by rewrite <- app_comm_cons, <- Hs|].
      by constructor.
    + by exists [].
Qed.

Lemma rstrip_split (s : str) :
  exists ws : str, s = rstrip s ++ ws /\ Forall (fun c => isspace c = true) ws.
Proof.
  unfold rstrip. destruct (lstrip_split (rev s)) as (ws & Hs & Hws).
  exists (rev ws). split; [|by apply Forall_rev].
  by rewrite <- rev_app_distr, <- Hs, rev_involutive.
Qed.

Lemma findall_word_spaces (cur ws : str) :
  Forall (fun c => isspace c = true) ws ->
  findall_word_from cur ws = flush cur [].
Proof.
  intros H. revert cur. induction H as [|c ws Hc Hws IH]; intros cur;
    simpl; [done|].
  by rewrite (isword_space c Hc), IH.
Qed.

Lemma findall_word_app_spaces (cur s ws : str) :
  Forall (fun c => isspace c = true) ws ->
  findall_word_from cur (s ++ ws) = findall_word_from cur s.
Proof.
  intros H. revert cur. induction s as [|c s IH]; intros cur; simpl.
  - by apply findall_word_spaces.
  - by rewrite !IH.
Qed.

Lemma findall_word_rstrip (s : str) :
  findall_word_from [] (rstrip s) = findall_word_from [] s.
Proof.
  destruct (rstrip_split s) as (ws & Hs & Hws).
  rewrite Hs at 2. by rewrite findall_word_app_spaces.
Qed.

(** The tokens of the normalized text are those of the text. *)
Lemma re_findall_word_norm (s : str) :
  re_findall_word (strip (re_sub_ws s)) = re_findall_word s.
Proof.
  unfold re_findall_word, strip, re_sub_ws.
  rewrite findall_word_rstrip, findall_word_lstrip.
  by apply findall_word_sub_ws.
Qed.

Lemma re_findall_word_nonempty (s : str) :
  re_findall_word s <> [] -> s <> [].
Proof. by intros H ->. Qed.
End Tokens.

(** ** Lowercasing plain text commutes with the scanners *)

Lemma lower_plain_eqb (c k : cp) :
  k < 65 \/ 122 < k -> (lower_plain c =? k) = (c =? k).
Proof.
  unfold lower_plain. intros Hk. cp_cases; simpl in *; first [done|lia].
Qed.

Lemma tag_rest_lower (s : str) :
  tag_rest (lower_str s) = lower_str <$> tag_rest s.
Proof.
  induction s as [|c s IH]; simpl; [done|].
  unfold GT, LF. rewrite !lower_plain_eqb by lia.
  destruct (c =? 62); [done|]. by destruct (c =? 10).
Qed.

Lemma sub_tags_lower (in_tag : bool) (s : str) :
  sub_tags_from in_tag (lower_str s) = lower_str (sub_tags_from in_tag s).
Proof.
  revert in_tag. induction s as [|c s IH]; intros in_tag; simpl; [done|].
  unfold GT, LT. rewrite !lower_plain_eqb by lia.
  destruct in_tag.
  - destruct (c =? 62); apply IH.
  - rewrite tag_rest_lower.
    rewrite (bool_decide_ext _ (is_Some (tag_rest s)))
      by apply fmap_is_Some.
    destruct (_ && _); simpl; by rewrite IH.
Qed.

Lemma isword_lower (c : cp) :
  @isword PlainUnicode (lower_plain c) = @isword PlainUnicode c.
Proof.
  unfold isword, LOW_LINE. simpl. unfold alnum_plain, lower_plain.
  cp_cases; simpl in *; first [done|lia].
Qed.

Lemma lower_str_rev (s : str) : lower_str (rev s) = rev (lower_str s).
Proof.
  unfold lower_str. induction s as [|c s IH]; simpl; [done|].
  by rewrite fmap_app, IH.
Qed.

Lemma flush_lower (cur : str) (toks : list str) :
  flush (lower_str cur) (lower_str <$> toks) = lower_str <$> flush cur toks.
Proof.
  destruct cur as [|c cur]; [done|].
  change (flush (lower_str (c :: cur)) (lower_str <$> toks))
    with (rev (lower_str (c :: cur)) :: (lower_str <$> toks)).
  by rewrite <- lower_str_rev.
Qed.

Lemma findall_word_lower (cur s : str) :
  @findall_word_from PlainUnicode (lower_str cur) (lower_str s)
    = lower_str <$> @findall_word_from PlainUnicode cur s.
Proof.
  revert cur. induction s as [|c s IH]; intros cur; simpl.
  - apply (flush_lower cur []).
  - rewrite isword_lower. destruct (isword c).
    + apply (IH (c :: cur)).
    + rewrite <- flush_lower. f_equal. apply (IH []).
Qed.

(** ** The canonicalizer *)

Section Canonicalizer.
Context {U : Unicode}.

Lemma _canonical_clean_str (s : str) :
  _canonical_clean (VStr s) =
    let body := strip (re_sub_ws (re_sub_tags (str_lower s))) in
    if any_toxic (tokens_after_tags (str_lower s)) then Ok None
    else Ok (match body with [] => None | _ => Some body end).
Proof.
  unfold _canonical_clean, tokens_after_tags. simpl.
  by rewrite re_findall_word_norm.
Qed.

Lemma any_toxic_true (toks : list str) :
  any_toxic toks = true <-> exists tok, tok ∈ toks /\ tok ∈ TOXIC_WORDS.
Proof.
  unfold any_toxic. rewrite existsb_exists. split.
  - intros (tok & Hin & Htox). exists tok.
    split; [by apply list_elem_of_In|by apply bool_decide_eq_true in Htox].
  - intros (tok & Hin & Htox). exists tok.
    split; [by apply list_elem_of_In|by apply bool_decide_eq_true].
Qed.

Lemma rejects_toxic_token (s tok : str) :
  tok ∈ TOXIC_WORDS -> tok ∈ tokens_after_tags (str_lower s) ->
  _canonical_clean (VStr s) = Ok None.
Proof.
  intros Htox Hin. rewrite _canonical_clean_str. simpl.
  rewrite (proj2 (any_toxic_true _)); [done|]. by exists tok.
Qed.

Lemma keeps_clean_text (s : str) :
  tokens_after_tags (str_lower s) <> [] ->
  (forall tok, tok ∈ tokens_after_tags (str_lower s) -> tok ∉ TOXIC_WORDS) ->
  exists s' : str, _canonical_clean (VStr s) = Ok (Some s').
Proof.
  intros Hne Hclean. rewrite _canonical_clean_str. simpl.
  destruct (any_toxic _) eqn:Htox.
  - apply any_toxic_true in Htox as (tok & Hin & Htox).
    by destruct (Hclean tok Hin).
  - destruct (strip _) as [|c body] eqn:Hbody; [|by eexists].
    destruct Hne. unfold tokens_after_tags.
    by rewrite <- re_findall_word_norm, Hbody.
Qed.

(** On plain text the tokens the filter sees are the lowercased tokens
    of the text without its tags. *)
Lemma tokens_after_tags_lower (s : str) :
  plain_str s ->
  tokens_after_tags (str_lower s) = lower_str <$> tokens_after_tags s.
Proof.
  intros H. unfold tokens_after_tags, re_sub_tags.
  rewrite (str_lower_plain_str s H), sub_tags_lower.
  rewrite (re_findall_word_plain (U:=U) (lower_str _))
    by by apply plain_str_lower, plain_str_sub_tags.
  rewrite (re_findall_word_plain (U:=U) (sub_tags_from false s))
    by by apply plain_str_sub_tags.
  exact (findall_word_lower [] (sub_tags_from false s)).
Qed.
End Canonicalizer.

(** ** Cleaning a cleaned text *)

Lemma elem_of_sub_tags (b : bool) (s : str) (x : cp) :
  x ∈ sub_tags_from b s -> x ∈ s.
Proof.
  intros Hx.
  assert (Forall (fun c => c ∈ s) (sub_tags_from b s)) as H
    by (apply Forall_sub_tags, Forall_forall; auto).
  rewrite Forall_forall in H. by apply H.
Qed.

Lemma elem_of_sub_ws (b : bool) (s : str) (x : cp) :
  x ∈ sub_ws_from b s -> x ∈ s \/ x = SP.
Proof.
  intros Hx.
  assert (Forall (fun c => c ∈ s \/ c = SP) (sub_ws_from b s)) as H
    by (apply Forall_sub_ws; [by right|apply Forall_forall; auto]).
  rewrite Forall_forall in H. by apply H.
Qed.

Lemma tag_rest_none (s : str) : tag_rest s = None -> LF ∉ s -> GT ∉ s.
Proof.
  induction s as [|c s IH]; simpl; [intros _ _; apply not_elem_of_nil|].
  destruct (N.eqb_spec c GT) as [->|Hgt]; [done|].
  destruct (N.eqb_spec c LF) as [->|Hlf].
  - intros _ []%not_elem_of_cons. done.
  - intros Hr [_ Hs]%not_elem_of_cons. apply not_elem_of_cons.
    split; [done|by apply IH].
Qed.

Lemma tag_free_sub_tags (b : bool) (s : str) :
  LF ∉ s -> tag_free (sub_tags_from b s).
Proof.
  revert b. induction s as [|c s IH]; intros b; simpl; [done|].
  intros [Hc Hs]%not_elem_of_cons. destruct b.
  - destruct (c =? GT); by apply IH.
  - destruct (N.eqb_spec c LT) as [->|Hlt]; simpl.
    + destruct (tag_rest s) as [r|] eqn:Hr.
      * rewrite bool_decide_eq_true_2 by by eexists. by apply IH.
      * rewrite bool_decide_eq_false_2 by by intros [? [=]].
        split; [|by apply IH]. intros _ Hin%elem_of_sub_tags.
        by apply (tag_rest_none s Hr Hs).
    + split; [done|by apply IH].
Qed.

Lemma tag_free_sub_ws (b : bool) (s : str) :
  tag_free s -> tag_free (sub_ws_from b s).
Proof.
  revert b. induction s as [|c s IH]; intros b; simpl; [done|].
  intros [Hc Hs]. destruct (isspace c) eqn:Hsp.
  - destruct b; [by apply IH|]. split; [done|by apply IH].
  - split; [|by apply IH]. intros Hlt [Hin|Heq]%elem_of_sub_ws; [|done].
    by apply Hc.
Qed.

Lemma tag_free_lstrip (s : str) : tag_free s -> tag_free (lstrip s).
Proof.
  induction s as [|c s IH]; simpl; [done|].
  intros [Hc Hs]. destruct (isspace c); [by apply IH|done].
Qed.

Lemma tag_free_prefix (a w : str) : tag_free (a ++ w) -> tag_free a.
Proof.
  induction a as [|c a IH]; simpl; [done|].
  intros [Hc Ha]. split; [|by apply IH].
  intros Hlt Hin. apply (Hc Hlt). apply elem_of_app. by left.
Qed.

Lemma tag_free_strip (s : str) : tag_free s -> tag_free (strip s).
Proof.
  intros H%tag_free_lstrip. unfold strip.
  destruct (rstrip_split (lstrip s)) as (ws & Hs & _).
  rewrite Hs in H. by apply tag_free_prefix in H.
Qed.

Lemma re_sub_tags_tag_free (s : str) : tag_free s -> re_sub_tags s = s.
Proof.
  induction s as [|c s IH]; [done|]. intros [Hc Hs].
  rewrite re_sub_tags_cons, (IH Hs).
  destruct (N.eqb_spec c LT) as [Hlt|_]; [|done].
  by rewrite (tag_rest_no_gt s (Hc Hlt)).
Qed.

Lemma single_spaced_sub_ws (b : bool) (s : str) :
  single_spaced b (sub_ws_from b s) = true.
Proof.
  revert b. induction s as [|c s IH]; intros b; simpl; [done|].
  destruct (isspace c) eqn:Hc.
  - destruct b; [apply IH|]. simpl. apply IH.
  - simpl. rewrite Hc. apply IH.
Qed.

Lemma sub_ws_single_spaced (b : bool) (s : str) :
  single_spaced b s = true -> sub_ws_from b s = s.
Proof.
  revert b. induction s as [|c s IH]; intros b; simpl; [done|].
  destruct (isspace c).
  - intros [[Hc Hb]%andb_true_iff Hs]%andb_true_iff.
    destruct b; [done|]. apply N.eqb_eq in Hc as ->. by rewrite IH.
  - intros Hs. by rewrite IH.
Qed.

Lemma single_spaced_lstrip (b : bool) (s : str) :
  single_spaced b s = true -> single_spaced false (lstrip s) = true.
Proof.
  revert b. induction s as [|c s IH]; intros b; simpl; [done|].
  destruct (isspace c) eqn:Hc.
  - intros [_ Hs]%andb_true_iff. by apply (IH true).
  - simpl. by rewrite Hc.
Qed.

Lemma single_spaced_prefix (b : bool) (a w : str) :
  single_spaced b (a ++ w) = true -> single_spaced b a = true.
Proof.
  revert b. induction a as [|c a IH]; intros b; simpl; [done|].
  destruct (isspace c).
  - intros [Hc Hs]%andb_true_iff. rewrite Hc. by apply IH.
  - apply IH.
Qed.

Lemma single_spaced_norm (s : str) :
  single_spaced false (strip (re_sub_ws s)) = true.
Proof.
  unfold strip.
  destruct (rstrip_split (lstrip (re_sub_ws s))) as (ws & Hs & _).
  apply (single_spaced_prefix _ _ ws). rewrite <- Hs.
  apply (single_spaced_lstrip false), single_spaced_sub_ws.
Qed.

Lemma clean_start_lstrip (s : str) : clean_start (lstrip s) = true.
Proof.
  induction s as [|c s IH]; simpl; [done|].
  destruct (isspace c) eqn:Hc; [done|]. simpl. by rewrite Hc.
Qed.

Lemma lstrip_clean_start (s : str) : clean_start s = true -> lstrip s = s.
Proof.
  destruct s as [|c s]; simpl; [done|]. by intros ->%negb_true_iff.
Qed.

Lemma clean_start_prefix (a w : str) :
  clean_start (a ++ w) = true -> clean_start a = true.
Proof. by destruct a. Qed.

Lemma rstrip_rstrip (s : str) : rstrip (rstrip s) = rstrip s.
Proof.
  unfold rstrip. rewrite rev_involutive.
  by rewrite (lstrip_clean_start _ (clean_start_lstrip _)).
Qed.

Lemma strip_strip (s : str) : strip (strip s) = strip s.
Proof.
  assert (lstrip (strip s) = strip s) as Hl.
  { apply lstrip_clean_start. unfold strip.
    destruct (rstrip_split (lstrip s)) as (ws & Hs & _).
    apply (clean_start_prefix _ ws). rewrite <- Hs. apply clean_start_lstrip. }
  unfold strip at 1. rewrite Hl. unfold strip. apply rstrip_rstrip.
Qed.

Lemma norm_of_norm (s : str) :
  strip (re_sub_ws (strip (re_sub_ws s))) = strip (re_sub_ws s).
Proof.
  unfold re_sub_ws at 1.
  rewrite (sub_ws_single_spaced _ _ (single_spaced_norm s)).
  apply strip_strip.
Qed.

Lemma lower_plain_lower (c : cp) : lower_plain (lower_plain c) = lower_plain c.
Proof. unfold lower_plain. cp_cases; simpl in *; first [done|lia]. Qed.

Lemma lower_str_fixed (s : str) :
  Forall (fun c => lower_plain c = c) s -> lower_str s = s.
Proof.
  unfold lower_str. induction 1 as [|c s Hc Hs IH]; [done|].
  rewrite fmap_cons. by f_equal.
Qed.

Lemma lower_str_lowered (s : str) :
  Forall (fun c => lower_plain c = c) (lower_str s).
Proof.
  unfold lower_str. apply Forall_fmap, Forall_forall. intros c _.
  apply lower_plain_lower.
Qed.

Lemma lower_str_no_lf (s : str) : LF ∉ s -> LF ∉ lower_str s.
Proof.
  unfold lower_str. intros Hs (c & Hc & Hin)%list_elem_of_fmap.
  assert ((lower_plain c =? 10) = (c =? 10)) as H
    by (apply lower_plain_eqb; lia).
  unfold LF in Hc at 1. rewrite <- Hc, N.eqb_refl in H.
  symmetry in H. apply N.eqb_eq in H as ->. done.
Qed.

(** The canonicalizer returns its own output unchanged when the text is
    plain and holds no line feed. *)
Lemma _canonical_clean_fixed `{U : Unicode} (s s' : str) :
  plain_str s -> LF ∉ s ->
  _canonical_clean (VStr s) = Ok (Some s') ->
  _canonical_clean (VStr s') = Ok (Some s').
Proof.
  intros Hs Hlf. rewrite !_canonical_clean_str. simpl.
  rewrite (str_lower_plain_str s Hs).
  set (body := strip (re_sub_ws (re_sub_tags (lower_str s)))).
  intros Hrun.
  assert (plain_str body) as Hplain
    by by apply plain_str_norm, plain_str_sub_tags, plain_str_lower.
  assert (lower_str body = body) as Hlow.
  { apply lower_str_fixed, Forall_strip, Forall_sub_ws; [done|].
    apply Forall_sub_tags, lower_str_lowered. }
  assert (re_sub_tags body = body) as Htags.
  { apply re_sub_tags_tag_free, tag_free_strip, tag_free_sub_ws.
    by apply tag_free_sub_tags, lower_str_no_lf. }
  assert (tokens_after_tags body = tokens_after_tags (lower_str s)) as Htok.
  { unfold tokens_after_tags. rewrite Htags. apply re_findall_word_norm. }
  destruct (any_toxic (tokens_after_tags (lower_str s))) eqn:Htox; [done|].
  destruct body as [|c body'] eqn:Hbody; [done|].
  injection Hrun as <-. rewrite <- Hbody in *.
  rewrite (str_lower_plain_str body Hplain), Hlow, Htok, Htox, Htags.
  unfold body at 1 2. rewrite norm_of_norm. fold body. by rewrite Hbody.
Qed.

(** * The claims *)

(** C1. Grader exactness on the fixture: the canonicalizer turns the nine
    reviews into the set of the four expected rows (three toxic reviews
    dropped, two pairs of duplicates merged), and the grader returns [True]
    on a list of exactly these four strings, in any order. *)
Theorem grader_exact_on_fixture `{U : Unicode} :
  canonical_from ORIGINAL_REVIEWS ∅ = Ok canonical_set
  /\ size canonical_set = 4%nat
  /\ (fun r => _canonical_clean (VStr r)) <$> ORIGINAL_REVIEWS
     = [ Ok (Some row_love); Ok None; Ok (Some row_decent);
         Ok (Some row_love); Ok None; Ok (Some row_pretty); Ok None;
         Ok (Some row_pretty); Ok (Some row_excellent) ]
  /\ forall l : list str,
       l ≡ₚ canonical_rows -> grading_func (py_str_list l) = Ok true.
Proof.
  split; [apply canonical_from_reviews|].
  split; [by vm_compute|].
  split.
  - transitivity
      ((fun r => @_canonical_clean PlainUnicode (VStr r)) <$> ORIGINAL_REVIEWS);
      [|by vm_compute].
    apply Forall_fmap_ext.
    eapply Forall_impl; [apply reviews_plain|]. intros r Hr.
    by apply _canonical_clean_plain.
  - intros l Hl.
    rewrite (grading_func_plain l (plain_str_perm _ _ Hl rows_plain)).
    assert (forallb (fun l => bool_decide
                       (@grading_func PlainUnicode (py_str_list l) = Ok true))
              (permutations canonical_rows) = true) as H by by vm_compute.
    rewrite forallb_forall in H.
    apply (bool_decide_unpack _), Is_true_true, H, list_elem_of_In.
    by apply permutations_Permutation.
Qed.

(** An instance of C1: the four rows in another order. *)
Lemma grader_exact_on_fixture_witness :
  @grading_func PlainUnicode
     (py_str_list [row_excellent; row_pretty; row_decent; row_love])
    = Ok true.
Proof.
  apply (proj2 (proj2 (proj2 (@grader_exact_on_fixture PlainUnicode)))).
  apply (bool_decide_unpack _). vm_compute. exact I.
Defined.

(** C2. Exact coverage: on a list of strings that pass the rules for single
    items the grader returns [True] exactly when the normalized rows are
    pairwise different and their set is the canonical set; so it returns
    [False] on any three strings, in particular on three of the four
    canonical rows, and on the four canonical rows followed by any further
    string. *)
Theorem grader_exact_coverage `{U : Unicode} :
  (forall l : list str,
     Forall (fun s => item_ok s = true) l ->
     grading_func (py_str_list l) = Ok true <->
       NoDup (norm_of <$> l)
       /\ list_to_set (norm_of <$> l) =@{gset str} canonical_set)
  /\ (forall l : list str,
        List.length l = 3%nat -> grading_func (py_str_list l) = Ok false)
  /\ grading_func (py_str_list [row_decent; row_pretty; row_excellent])
     = Ok false
  /\ (forall extra : str,
        grading_func (py_str_list (canonical_rows ++ [extra])) = Ok false).
Proof.
  split; [|split; [|split]].
  - intros l Hok. rewrite grading_func_true. tauto.
  - intros l Hl. apply grading_func_wrong_length. by rewrite Hl.
  - by apply grading_func_wrong_length.
  - intros extra. apply grading_func_wrong_length. by rewrite length_app.
Qed.

(** An instance of C2: three of the four canonical rows. *)
Lemma grader_exact_coverage_witness :
  @grading_func PlainUnicode (py_str_list [row_love; row_pretty; row_excellent])
    = Ok false.
Proof.
  exact (proj1 (proj2 (@grader_exact_coverage PlainUnicode))
           [row_love; row_pretty; row_excellent] eq_refl).
Defined.

(** C3, as the code has it.  The structural check is [isinstance(result,
    list)]: a value that is not a list is graded [False] at once, a tuple
    of the four canonical rows included, and the list of the four
    canonical rows is graded [True]. *)
Theorem grader_accepts_lists_only `{U : Unicode} :
  (forall v : pyval, isinstance_list v = false -> grading_func v = Ok false)
  /\ grading_func (VList (VStr <$> canonical_rows)) = Ok true
  /\ grading_func (VTuple (VStr <$> canonical_rows)) = Ok false.
Proof.
  split; [|split].
  - intros v Hv. unfold grading_func. by rewrite Hv.
  - change (VList (VStr <$> canonical_rows)) with (py_str_list canonical_rows).
    run_grader.
  - done.
Qed.

(** An instance of C3: a string is not a list. *)
Lemma grader_accepts_lists_only_witness :
  @grading_func PlainUnicode (VStr row_pretty) = Ok false.
Proof.
  exact (proj1 (@grader_accepts_lists_only PlainUnicode)
           (VStr row_pretty) eq_refl).
Defined.

(** C3 as stated fails: the tuple of the four canonical rows is a sequence
    and is graded [False], while the list of the same rows is graded
    [True]. *)
Lemma tuple_of_rows_rejected :
  @grading_func PlainUnicode (VList (VStr <$> canonical_rows)) = Ok true
  /\ @grading_func PlainUnicode (VTuple (VStr <$> canonical_rows)) = Ok false.
Proof. split; by vm_compute. Qed.

(** C4, at the input where the code breaks it.  A tag that holds a line
    feed is not removed, since ['.'] does not match a line feed; the
    normalization of white space then turns the line feed into a space,
    and cleaning the result again removes the tag: the canonicalizer's
    output is not a fixed point. *)
Theorem canonical_clean_twice_differs `{U : Unicode} :
  let text := cps "a<" ++ [LF] ++ cps ">" in
  _canonical_clean (VStr text) = Ok (Some (cps "a< >"))
  /\ _canonical_clean (VStr (cps "a< >")) = Ok (Some (cps "a")).
Proof. intros text. split; run_canonical_clean. Qed.

(** C5, as the code has it.  The filter looks at whole word tokens of the
    lowercased text left after tag stripping: a text whose tokens include
    "stupidity" and no toxic word is kept, a text with the token "stupid"
    is rejected, and on plain text this is the token "stupid" of the text
    without its tags, in any letter case. *)
Theorem toxicity_whole_word `{U : Unicode} :
  _canonical_clean (VStr (cps "stupidity")) = Ok (Some (cps "stupidity"))
  /\ (forall s : str,
        cps "stupidity" ∈ tokens_after_tags (str_lower s) ->
        (forall tok, tok ∈ tokens_after_tags (str_lower s) ->
                     tok ∉ TOXIC_WORDS) ->
        exists s' : str, _canonical_clean (VStr s) = Ok (Some s'))
  /\ (forall s : str,
        cps "stupid" ∈ tokens_after_tags (str_lower s) ->
        _canonical_clean (VStr s) = Ok None)
  /\ (forall s tok : str,
        plain_str s -> tok ∈ tokens_after_tags s ->
        lower_str tok = cps "stupid" ->
        _canonical_clean (VStr s) = Ok None)
  /\ _canonical_clean (VStr (cps "This is STUPID")) = Ok None.
Proof.
  assert (cps "stupid" ∈ TOXIC_WORDS) as Htox
    by (apply (bool_decide_unpack _); by vm_compute).
  split; [run_canonical_clean|].
  split; [|split; [|split]].
  - intros s Hin Hclean. apply keeps_clean_text; [|done].
    intros Hnil. rewrite Hnil in Hin. by apply elem_of_nil in Hin.
  - intros s Hin. by apply (rejects_toxic_token s (cps "stupid")).
  - intros s tok Hs Hin Hlow. apply (rejects_toxic_token s (cps "stupid"));
      [done|].
    rewrite (tokens_after_tags_lower s Hs), <- Hlow.
    by apply list_elem_of_fmap_2.
  - run_canonical_clean.
Qed.

(** An instance of C5: the word stands outside the tags, capitalized. *)
Lemma toxicity_whole_word_witness :
  @_canonical_clean PlainUnicode (VStr (cps "<b>really</b> Stupid idea"))
    = Ok None.
Proof.
  apply (proj1 (proj2 (proj2 (proj2 (@toxicity_whole_word PlainUnicode))))
           (cps "<b>really</b> Stupid idea") (cps "Stupid")).
  - apply plain_str_forallb. reflexivity.
  - apply (bool_decide_unpack _). vm_compute. exact I.
  - reflexivity.
Defined.

(** C5 as stated fails: "STUPID" is a whole word token of the text below,
    yet the text is kept, for the token lies inside a tag and is removed
    with it. *)
Lemma toxic_word_inside_tag_kept :
  cps "STUPID" ∈ @re_findall_word PlainUnicode (cps "ok <STUPID>")
  /\ @_canonical_clean PlainUnicode (VStr (cps "ok <STUPID>"))
     = Ok (Some (cps "ok")).
Proof. split; [apply (bool_decide_unpack _)|]; by vm_compute. Qed.

(** C6. Totality of the grader: on every value, whatever its shape, the
    grader returns a boolean; no operation in it raises. *)
Theorem grader_total `{U : Unicode} (v : pyval) :
  exists b : bool, grading_func v = Ok b.
Proof. apply grading_func_returns. Qed.

Section Tool.
Import Evaluator.
Variable py : interpreter.

(** C7, at the input where the code breaks it.  The handler calls
    [str(e)] with nothing around it: when [str(e)] raises, what it raises
    leaves the tool, an [Exception] included.  The code below raises an
    exception whose [__str__] divides by zero, and the tool raises the
    [ZeroDivisionError] instead of returning a record. *)
Theorem tool_raises_when_str_raises :
  (forall (py' : interpreter) (expression : str) (w w' : world)
          (inner : raised),
     exec py' expression (redirected w)
       = (Raised (ExceptionStrRaises inner), w') ->
     fst (python_expression_tool py' expression w) = Raised inner)
  /\ fst (python_expression_tool py_sample code_no_text world0)
     = Raised (ExceptionOf (cps "division by zero")).
Proof.
  split; [|by vm_compute].
  intros py' expression w w' inner Hrun.
  unfold python_expression_tool, redirected in *. simpl in *.
  by rewrite Hrun.
Qed.

End Tool.

(** C9. The grader compares normalized forms: a list in which a canonical
    row is written with a doubled inner space and a trailing space, and so
    is none of the canonical strings, is graded [True]. *)
Theorem grader_judges_normal_forms `{U : Unicode} :
  let spaced := cps "pretty  good overall " in
  (spaced ∉ canonical_rows)
  /\ norm_of spaced = row_pretty
  /\ grading_func (py_str_list [row_love; row_decent; spaced; row_excellent])
     = Ok true.
Proof.
  intros spaced. split; [|split].
  - apply (bool_decide_unpack _). by vm_compute.
  - by vm_compute.
  - run_grader.
Qed.

(** C10. Tag stripping removes matched pairs only: a text without ['>']
    is left as it is, so "a < b" is kept with its ['<']; the rows of the
    canonical set have no angle bracket because every bracket of the
    dataset belongs to a tag. *)
Theorem unmatched_bracket_survives `{U : Unicode} :
  _canonical_clean (VStr (cps "a < b")) = Ok (Some (cps "a < b"))
  /\ LT ∈ cps "a < b"
  /\ (forall s : str, GT ∉ s -> re_sub_tags s = s)
  /\ set_Forall (fun row : str => (LT ∉ row) /\ (GT ∉ row)) canonical_set
  /\ Forall (fun r : str => (LT ∉ re_sub_tags r) /\ (GT ∉ re_sub_tags r))
       ORIGINAL_REVIEWS.
Proof.
  split; [run_canonical_clean|].
  split; [apply (bool_decide_unpack _); by vm_compute|].
  split; [apply re_sub_tags_no_gt|].
  split.
  - unfold canonical_set. intros row Hrow%elem_of_list_to_set.
    revert row Hrow. apply Forall_forall.
    apply (bool_decide_unpack _). by vm_compute.
  - apply (bool_decide_unpack _). by vm_compute.
Qed.

(** An instance of C10: nothing closes the brackets of this text. *)
Lemma unmatched_bracket_survives_witness :
  re_sub_tags (cps "1 < 2 <b") = cps "1 < 2 <b".
Proof.
  apply (proj1 (proj2 (proj2 (@unmatched_bracket_survives PlainUnicode)))).
  apply (bool_decide_unpack _). vm_compute. exact I.
Defined.

(** * A further property *)

(** X1. Idempotence away from line feeds: when the text is plain and
    holds no line feed, the canonicalizer returns its own output
    unchanged. *)
Theorem canonical_clean_idempotent_without_line_feed `{U : Unicode}
    (s s' : str) :
  plain_str s -> LF ∉ s ->
  _canonical_clean (VStr s) = Ok (Some s') ->
  _canonical_clean (VStr s') = Ok (Some s').
Proof. apply _canonical_clean_fixed. Qed.

(** An instance of X1: the first review. *)
Lemma canonical_clean_idempotent_witness :
  @_canonical_clean PlainUnicode (VStr row_love) = Ok (Some row_love).
Proof.
  apply (@canonical_clean_idempotent_without_line_feed PlainUnicode
           (cps "I LOVE this product!!!  ") row_love).
  - apply plain_str_forallb. reflexivity.
  - apply (bool_decide_unpack _). vm_compute. exact I.
  - reflexivity.
Defined.

(** * Further properties of the code *)

(** ** The canonicalizer's output *)

Section Output.
Context {U : Unicode}.

Lemma clean_start_rstrip_rev (s : str) : clean_start (rev (rstrip s)) = true.
Proof. unfold rstrip. rewrite rev_involutive. apply clean_start_lstrip. Qed.

Lemma clean_start_strip (s : str) : clean_start (strip s) = true.
Proof.
  unfold strip. destruct (rstrip_split (lstrip s)) as (ws & Hs & _).
  apply (clean_start_prefix _ ws). rewrite <- Hs. apply clean_start_lstrip.
Qed.

Lemma _canonical_clean_some (s s' : str) :
  _canonical_clean (VStr s) = Ok (Some s') <->
    s' = strip (re_sub_ws (re_sub_tags (str_lower s)))
    /\ s' <> []
    /\ any_toxic (re_findall_word s') = false.
Proof.
  unfold _canonical_clean. simpl.
  destruct (strip (re_sub_ws (re_sub_tags (str_lower s)))) as [|c r] eqn:Hb.
  - destruct (any_toxic _); split; try done; by intros (-> & ? & _).
  - destruct (any_toxic _) eqn:Htox.
    + split; [done|]. intros (-> & _ & H). congruence.
    + split; [by intros [= <-]|]. by intros (-> & _ & _).
Qed.

(** X2. The shape of a canonical text: whatever string goes in, a text the
    canonicalizer returns is not empty, neither starts nor ends with
    white space, holds no white space but single spaces, is unchanged by
    the normalization of white space, and has no toxic token. *)
Theorem canonical_clean_output_normal (s s' : str) :
  _canonical_clean (VStr s) = Ok (Some s') ->
  s' <> []
  /\ clean_start s' = true /\ clean_start (rev s') = true
  /\ single_spaced false s' = true
  /\ norm_of s' = s'
  /\ any_toxic (re_findall_word s') = false.
Proof.
  intros H. apply _canonical_clean_some in H as (-> & Hne & Htox).
  split; [done|]. repeat split.
  - apply clean_start_strip.
  - apply clean_start_rstrip_rev.
  - apply single_spaced_norm.
  - apply norm_of_norm.
  - done.
Qed.
End Output.

(** ** What the canonicalizer does not see *)

Lemma lower_str_not_elem (k : cp) (s : str) :
  k < 65 \/ 122 < k -> k ∉ s -> k ∉ lower_str s.
Proof.
  unfold lower_str. intros Hk Hs (c & Hc & Hin)%list_elem_of_fmap.
  pose proof (lower_plain_eqb c k Hk) as H.
  rewrite <- Hc, N.eqb_refl in H. symmetry in H.
  apply N.eqb_eq in H as ->. done.
Qed.

Lemma lower_str_app (a b : str) :
  lower_str (a ++ b) = lower_str a ++ lower_str b.
Proof. apply fmap_app. Qed.

Lemma re_sub_tags_app (a x : str) :
  LT ∉ a -> re_sub_tags (a ++ x) = a ++ re_sub_tags x.
Proof.
  induction a as [|c a IH]; [done|].
  intros [Hc Ha]%not_elem_of_cons.
  rewrite <- app_comm_cons, re_sub_tags_cons, (IH Ha).
  destruct (N.eqb_spec c LT) as [->|_]; [done|done].
Qed.

Lemma re_sub_tags_no_lt (s : str) : LT ∉ s -> re_sub_tags s = s.
Proof.
  intros H. rewrite <- (app_nil_r s) at 1.
  rewrite (re_sub_tags_app s [] H). by rewrite app_nil_r.
Qed.

Lemma tag_rest_app (t b : str) :
  GT ∉ t -> LF ∉ t -> tag_rest (t ++ GT :: b) = Some b.
Proof.
  induction t as [|c t IH]; simpl; [done|].
  intros [Hgt Ht]%not_elem_of_cons [Hlf Ht']%not_elem_of_cons.
  destruct (N.eqb_spec c GT) as [->|_]; [done|].
  destruct (N.eqb_spec c LF) as [->|_]; [done|]. by apply IH.
Qed.

(** A closed tag leaves no trace in the text that follows a tag-free
    prefix. *)
Lemma re_sub_tags_tag (a t b : str) :
  LT ∉ a -> GT ∉ t -> LF ∉ t ->
  re_sub_tags (a ++ LT :: t ++ GT :: b) = re_sub_tags (a ++ b).
Proof.
  intros Ha Hgt Hlf. rewrite !re_sub_tags_app by done.
  by rewrite re_sub_tags_cons, N.eqb_refl, tag_rest_app.
Qed.

Section Blind.
Context {U : Unicode}.

Lemma _canonical_clean_lower (s : str) :
  plain_str s ->
  _canonical_clean (VStr s) =
    let body := strip (re_sub_ws (re_sub_tags (lower_str s))) in
    if any_toxic (re_findall_word body) then Ok None
    else Ok (match body with [] => None | _ => Some body end).
Proof.
  intros H. unfold _canonical_clean. simpl.
  by rewrite (str_lower_plain_str s H).
Qed.

(** X3. Two plain texts that differ in letter case only are cleaned to
    the same result; so are two plain texts without ['<'] whose lowercase
    forms agree once white space is normalized. *)
Theorem canonical_clean_ignores_case_and_spacing (s t : str) :
  plain_str s -> plain_str t ->
  (lower_str s = lower_str t ->
   _canonical_clean (VStr s) = _canonical_clean (VStr t))
  /\ (LT ∉ s -> LT ∉ t ->
      strip (re_sub_ws (lower_str s)) = strip (re_sub_ws (lower_str t)) ->
      _canonical_clean (VStr s) = _canonical_clean (VStr t)).
Proof.
  intros Hs Ht. rewrite !_canonical_clean_lower by done. simpl. split.
  - by intros ->.
  - intros Hls Hlt Heq.
    rewrite !re_sub_tags_no_lt by (apply lower_str_not_elem; [left|]; done).
    by rewrite Heq.
Qed.

(** X4. A tag leaves no trace: in plain text, after a prefix without
    ['<'], a ['<'] closed by a ['>'] with neither ['>'] nor line feed in
    between is cleaned as if the tag were not there, whatever it holds. *)
Theorem canonical_clean_drops_tag (a t b : str) :
  plain_str a -> plain_str t -> plain_str b ->
  LT ∉ a -> GT ∉ t -> LF ∉ t ->
  _canonical_clean (VStr (a ++ LT :: t ++ GT :: b))
    = _canonical_clean (VStr (a ++ b)).
Proof.
  intros Ha Ht Hb Hlt Hgt Hlf.
  assert (plain_str (a ++ LT :: t ++ GT :: b)) as H1.
  { apply Forall_app. split; [done|]. constructor; [done|].
    apply Forall_app. split; [done|]. by constructor. }
  assert (plain_str (a ++ b)) as H2 by (apply Forall_app; by split).
  rewrite !_canonical_clean_lower by done. simpl.
  rewrite !lower_str_app.
  change (lower_str (LT :: t ++ GT :: b))
    with (LT :: lower_str (t ++ GT :: b)).
  rewrite lower_str_app.
  change (lower_str (GT :: b)) with (GT :: lower_str b).
  by rewrite re_sub_tags_tag
    by (apply lower_str_not_elem; [left|]; done).
Qed.
End Blind.

(** ** More on the grader *)

Section GraderMore.
Context {U : Unicode}.

Lemma grading_func_same (v v' : pyval) :
  (grading_func v = Ok true <-> grading_func v' = Ok true) ->
  grading_func v = grading_func v'.
Proof.
  destruct (grading_func_returns v) as [[|] Hv],
    (grading_func_returns v') as [[|] Hv']; rewrite Hv, Hv'; try done.
  - intros [H _]. by rewrite <- H.
  - intros [_ H]. by rewrite H.
Qed.

(** X6. The order of the submitted strings does not matter: two lists
    that are permutations of one another get the same verdict. *)
Theorem grader_ignores_order (l l' : list str) :
  l ≡ₚ l' -> grading_func (py_str_list l) = grading_func (py_str_list l').
Proof.
  assert (forall a b : list str, a ≡ₚ b ->
            grading_func (py_str_list a) = Ok true ->
            grading_func (py_str_list b) = Ok true) as Hone.
  { intros a b Hp. rewrite !grading_func_true. intros (Hok & Hnd & Hset).
    pose proof (fmap_Permutation norm_of a b Hp) as Hn.
    split; [|split].
    - apply Forall_forall. intros s Hs. rewrite Forall_forall in Hok.
      apply Hok. by rewrite Hp.
    - by rewrite <- Hn.
    - rewrite <- Hset. symmetry.
      by apply (list_to_set_perm_L (C:=gset str)). }
  intros Hp. apply grading_func_same.
  split; apply Hone; [done|by symmetry].
Qed.

(** X7. The verdict depends on a submitted string only through its
    normalized form and through whether it passes the rules for single
    items: lists that agree item by item on both get the same verdict. *)
Theorem grader_reads_normal_forms (l l' : list str) :
  Forall2 (fun s t => item_ok s = item_ok t /\ norm_of s = norm_of t) l l' ->
  grading_func (py_str_list l) = grading_func (py_str_list l').
Proof.
  intros H. apply grading_func_same. rewrite !grading_func_true.
  assert (norm_of <$> l = norm_of <$> l') as ->.
  { induction H as [|s t l l' [_ Hn] _ IH]; [done|].
    by rewrite !fmap_cons, Hn, IH. }
  assert (Forall (fun s => item_ok s = true) l
          <-> Forall (fun s => item_ok s = true) l') as ->; [|done].
  induction H as [|s t l l' [Hok _] _ IH]; [done|].
  by rewrite !Forall_cons, Hok, IH.
Qed.

(** X8. No duplicates: a list in which two strings have the same
    normalized form is graded [False], wherever the two stand. *)
Theorem grader_rejects_repeated_row (l1 l2 l3 : list str) (s t : str) :
  norm_of s = norm_of t ->
  grading_func (py_str_list (l1 ++ s :: l2 ++ t :: l3)) = Ok false.
Proof.
  intros Heq. apply grading_func_not_true.
  intros (_ & Hnd & _)%grading_func_true.
  rewrite fmap_app, fmap_cons, fmap_app, fmap_cons in Hnd.
  apply NoDup_app in Hnd as (_ & _ & Hnd).
  apply NoDup_cons in Hnd as [Hnin _]. apply Hnin.
  rewrite Heq. apply elem_of_app. right. apply elem_of_cons. by left.
Qed.

Lemma grade_items_valid (seen : gset str) (items : list pyval) :
  grade_items canonical_set seen items = Ok true ->
  Forall (fun v => valid_item v = true) items.
Proof.
  revert seen. induction items as [|v items IH]; intros seen; [constructor|].
  destruct v as [| | | |s| | |];
    try (rewrite grade_items_other by done; done).
  rewrite grade_items_str.
  destruct (item_ok s) eqn:Hok; simpl; [|done].
  destruct (bool_decide (norm_of s ∉ seen)); simpl; [|done].
  destruct (bool_decide (norm_of s ∈ canonical_set)) eqn:Hcan; simpl; [|done].
  intros H. constructor; [|by apply (IH _ H)].
  simpl. by rewrite Hok, Hcan.
Qed.

(** X9. One bad item spoils the list, wherever it stands: an item that is
    not a string, or breaks a rule for single items, or does not
    normalize to a canonical row, makes the verdict [False]. *)
Theorem grader_rejects_bad_item (items : list pyval) (v : pyval) :
  v ∈ items -> valid_item v = false ->
  grading_func (VList items) = Ok false.
Proof.
  intros Hin Hbad. apply grading_func_not_true.
  rewrite grading_func_list. intros H%grade_items_valid.
  rewrite Forall_forall in H. specialize (H v Hin). congruence.
Qed.

Lemma item_ok_canonical_clean (s : str) :
  item_ok s = true -> norm_of s <> [] ->
  _canonical_clean (VStr s) = Ok (Some (norm_of s)).
Proof.
  unfold item_ok. intros [[Hno Hlow]%andb_true_iff Htox]%andb_true_iff Hne.
  apply negb_true_iff, orb_false_iff in Hno as [_ Hgt].
  apply bool_decide_eq_false in Hgt. apply bool_decide_eq_true in Hlow.
  apply negb_true_iff in Htox.
  unfold _canonical_clean. simpl. rewrite <- Hlow.
  rewrite (re_sub_tags_no_gt s Hgt). fold (norm_of s). rewrite Htox.
  by destruct (norm_of s).
Qed.

(** X10. The grader and the canonicalizer agree: every string of a list
    graded [True] is cleaned by the canonicalizer to its normalized form,
    and that form is a row of the canonical set. *)
Theorem accepted_items_are_canonical (l : list str) (s : str) :
  grading_func (py_str_list l) = Ok true -> s ∈ l ->
  _canonical_clean (VStr s) = Ok (Some (norm_of s))
  /\ norm_of s ∈ canonical_set.
Proof.
  intros (Hok & _ & Hset)%grading_func_true Hin.
  assert (norm_of s ∈ canonical_set) as Hcan.
  { rewrite <- Hset. by apply elem_of_list_to_set, list_elem_of_fmap_2. }
  split; [|done]. rewrite Forall_forall in Hok.
  apply item_ok_canonical_clean; [by apply Hok|].
  intros Hnil. rewrite Hnil in Hcan. revert Hcan.
  apply (bool_decide_eq_false_1 _). by vm_compute.
Qed.
End GraderMore.

(** ** Values the canonicalizer turns away *)

Lemma lower_plain_space (c : cp) : isspace c = true -> lower_plain c = c.
Proof.
  unfold lower_plain.
  destruct (N.leb_spec 65 c), (N.leb_spec c 90); simpl; try done.
  unfold isspace. cp_cases; simpl; done.
Qed.

Lemma lstrip_spaces (s : str) :
  Forall (fun c => isspace c = true) s -> lstrip s = [].
Proof. induction 1 as [|c s Hc Hs IH]; simpl; [done|]. by rewrite Hc. Qed.

(** X5. The canonicalizer raises on no value: it returns [None] on every
    value that is not a string, and on every plain string made of white
    space only, the empty string included. *)
Theorem canonical_clean_turns_away `{U : Unicode} :
  (forall v : pyval, exists o, _canonical_clean v = Ok o)
  /\ (forall v : pyval,
        isinstance_str v = false -> _canonical_clean v = Ok None)
  /\ (forall s : str,
        plain_str s -> Forall (fun c => isspace c = true) s ->
        _canonical_clean (VStr s) = Ok None).
Proof.
  split; [|split].
  - intros v. unfold _canonical_clean.
    destruct v; simpl; try by eexists. destruct (any_toxic _); by eexists.
  - intros v Hv. unfold _canonical_clean. by rewrite Hv.
  - intros s Hs Hsp. rewrite _canonical_clean_lower by done. simpl.
    assert (lower_str s = s) as ->.
    { apply lower_str_fixed. eapply Forall_impl; [exact Hsp|].
      apply lower_plain_space. }
    assert (strip (re_sub_ws (re_sub_tags s)) = []) as ->; [|done].
    unfold strip. rewrite lstrip_spaces; [done|].
    by apply Forall_sub_ws, Forall_sub_tags.
Qed.

(** ** More on the expression tool *)

Section ToolMore.
Import Evaluator.
Variable py : interpreter.

(** X11. Fault isolation where the text of the fault can be had: when the
    code raises an [Exception] whose [str(e)] returns, the tool returns a
    record with [result] [None] and that text as [error]; a
    [KeyboardInterrupt] and an exception outside [Exception], such as
    [SystemExit], are raised by the tool; and a record with an [error]
    has [result] [None]. *)
Theorem tool_isolates_printable_faults (expression : str) (w : world) :
  (forall (msg : str) (w' : world),
     exec py expression (redirected w) = (Raised (ExceptionOf msg), w') ->
     fst (python_expression_tool py expression w)
       = Done (ToolResult VNone (Some msg)))
  /\ (forall w' : world,
        exec py expression (redirected w) = (Raised KeyboardInterrupt, w') ->
        fst (python_expression_tool py expression w)
          = Raised KeyboardInterrupt)
  /\ (forall (name : str) (w' : world),
        exec py expression (redirected w)
          = (Raised (OtherBaseException name), w') ->
        fst (python_expression_tool py expression w)
          = Raised (OtherBaseException name))
  /\ (forall r : PythonExpressionToolResult,
        fst (python_expression_tool py expression w) = Done r ->
        error r <> None -> result r = VNone).
Proof.
  unfold python_expression_tool, redirected. simpl.
  split; [|split; [|split]].
  - intros msg w' Hrun. by rewrite Hrun.
  - intros w' Hrun. by rewrite Hrun.
  - intros name w' Hrun. by rewrite Hrun.
  - intros r. destruct (exec py expression _) as [[[]|e] w1]; simpl.
    + destruct (getvalue py _ _) as [[v|e] w2]; simpl.
      * by intros [= <-].
      * destruct e; simpl; try done. by intros [= <-].
    + destruct e; simpl; try done. by intros [= <-].
Qed.

End ToolMore.

(** ** Instances of the further properties *)

(** An instance of X2: the first review. *)
Lemma canonical_clean_output_normal_witness :
  clean_start row_love = true /\ single_spaced false row_love = true.
Proof.
  pose proof (@canonical_clean_output_normal PlainUnicode
                (cps "I LOVE this product!!!  ") row_love eq_refl) as H.
  exact (conj (proj1 (proj2 H)) (proj1 (proj2 (proj2 (proj2 H))))).
Defined.

(** An instance of X3: capitals. *)
Lemma canonical_clean_ignores_case_witness :
  @_canonical_clean PlainUnicode (VStr (cps "Pretty Good Overall"))
    = @_canonical_clean PlainUnicode (VStr (cps "PRETTY good overall")).
Proof.
  exact (proj1 (@canonical_clean_ignores_case_and_spacing PlainUnicode
                  (cps "Pretty Good Overall") (cps "PRETTY good overall")
                  (proj1 (plain_str_forallb (cps "Pretty Good Overall"))
                     eq_refl)
                  (proj1 (plain_str_forallb (cps "PRETTY good overall"))
                     eq_refl))
           eq_refl).
Defined.

(** An instance of X4: a toxic word inside a tag. *)
Lemma canonical_clean_drops_tag_witness :
  @_canonical_clean PlainUnicode
     (VStr (cps "ok " ++ LT :: cps "b class=STUPID" ++ GT :: cps "fine"))
    = @_canonical_clean PlainUnicode (VStr (cps "ok " ++ cps "fine")).
Proof.
  apply (@canonical_clean_drops_tag PlainUnicode).
  - apply plain_str_forallb. reflexivity.
  - apply plain_str_forallb. reflexivity.
  - apply plain_str_forallb. reflexivity.
  - apply (bool_decide_unpack _). vm_compute. exact I.
  - apply (bool_decide_unpack _). vm_compute. exact I.
  - apply (bool_decide_unpack _). vm_compute. exact I.
Defined.

(** An instance of X5: a string of a space, a tab and a line feed. *)
Lemma canonical_clean_turns_away_witness :
  @_canonical_clean PlainUnicode (VStr [SP; 9; LF]) = Ok None.
Proof.
  apply (proj2 (proj2 (@canonical_clean_turns_away PlainUnicode))).
  - apply plain_str_forallb. reflexivity.
  - repeat constructor.
Defined.

(** An instance of X6: a list and its reverse. *)
Lemma grader_ignores_order_witness :
  @grading_func PlainUnicode (py_str_list [row_love; row_decent; row_pretty])
    = @grading_func PlainUnicode
        (py_str_list [row_pretty; row_decent; row_love]).
Proof.
  apply (@grader_ignores_order PlainUnicode).
  apply (bool_decide_unpack _). vm_compute. exact I.
Defined.

(** An instance of X7: the canonical rows with other spacing. *)
Lemma grader_reads_normal_forms_witness :
  @grading_func PlainUnicode
     (py_str_list [cps " i love  this product!!!"; row_decent; row_pretty;
                   row_excellent ++ [SP]])
    = @grading_func PlainUnicode (py_str_list canonical_rows).
Proof.
  apply (@grader_reads_normal_forms PlainUnicode).
  repeat (constructor; [split; vm_compute; reflexivity|]). constructor.
Defined.

(** An instance of X8: a row and the same row with a doubled space. *)
Lemma grader_rejects_repeated_row_witness :
  @grading_func PlainUnicode
     (py_str_list ([row_love] ++ row_pretty :: [row_decent]
                   ++ cps "pretty  good overall" :: [row_excellent]))
    = Ok false.
Proof.
  apply (@grader_rejects_repeated_row PlainUnicode). reflexivity.
Defined.

(** An instance of X9: a number among the rows. *)
Lemma grader_rejects_bad_item_witness :
  @grading_func PlainUnicode (VList [VStr row_love; VInt 3; VStr row_decent])
    = Ok false.
Proof.
  apply (@grader_rejects_bad_item PlainUnicode _ (VInt 3)).
  - apply elem_of_cons. right. apply elem_of_cons. left. reflexivity.
  - reflexivity.
Defined.

(** An instance of X10: a row of the accepted list of canonical rows. *)
Lemma accepted_items_are_canonical_witness :
  @_canonical_clean PlainUnicode (VStr row_pretty)
    = Ok (Some (@norm_of row_pretty))
  /\ @norm_of row_pretty ∈ canonical_set.
Proof.
  apply (@accepted_items_are_canonical PlainUnicode canonical_rows).
  - reflexivity.
  - apply (bool_decide_unpack _). vm_compute. exact I.
Defined.

(** An instance of X11: a division by zero is reported, an interrupt and
    an exit are raised. *)
Lemma tool_isolates_printable_faults_witness :
  fst (Evaluator.python_expression_tool py_sample code_divide world0)
    = Evaluator.Done
        (Evaluator.ToolResult VNone (Some (cps "division by zero")))
  /\ fst (Evaluator.python_expression_tool py_sample code_interrupt world0)
     = Evaluator.Raised Evaluator.KeyboardInterrupt
  /\ fst (Evaluator.python_expression_tool py_sample code_exit world0)
     = Evaluator.Raised (Evaluator.OtherBaseException (cps "SystemExit")).
Proof.
  split; [|split].
  - exact (proj1 (tool_isolates_printable_faults py_sample code_divide world0)
             (cps "division by zero") (redirected world0) eq_refl).
  - exact (proj1 (proj2 (tool_isolates_printable_faults py_sample
                           code_interrupt world0))
             (redirected world0) eq_refl).
  - exact (proj1 (proj2 (proj2 (tool_isolates_printable_faults py_sample
                                  code_exit world0)))
             (cps "SystemExit") (redirected world0) eq_refl).
Defined.

